(** * Logical clocks: Lamport time and vector time

    A shallow embedding of [clock.py].  Python integers are unbounded, so
    counters are [Z]; a process identity is a [uuid.UUID], which hashes,
    tests equal and orders by its 128-bit integer value and is modelled by
    that value; a [dict] is a finite map ([gmap]), whose equality is, like
    [dict.__eq__], equality of mappings regardless of insertion order.

    Mutation of [self] is explicit state passing: a method returns the new
    clock next to its result.  Python exceptions are values of [result]. *)

From stdpp Require Import base option list gmap fin_maps sorting.
From Stdlib Require Import ZArith.

Local Open Scope Z_scope.

(** ** Exceptions *)

Inductive exn : Type :=
  | AttributeError
  | KeyError.

Inductive result (A : Type) : Type :=
  | Ok (a : A)
  | Raise (e : exn).
Arguments Ok {A} a.
Arguments Raise {A} e.

(** Sequencing stops at the first exception. *)
#[global] Instance result_ret : MRet result := λ A a, Ok a.
#[global] Instance result_bind : MBind result := λ A B k r,
  match r with
  | Ok a => k a
  | Raise e => Raise e
  end.

(** An attribute of a Python object as a method finds it: not there at all,
    bound to [None], or bound to a value. *)
Inductive attr (A : Type) : Type :=
  | Missing
  | PyNone
  | Val (a : A).
Arguments Missing {A}.
Arguments PyNone {A}.
Arguments Val {A} a.

(** [obj.name]: an [AttributeError] when the attribute is not there,
    otherwise what it is bound to ([None] for Python's [None]). *)
Definition getattr {A : Type} (a : attr A) : result (option A) :=
  match a with
  | Missing => Raise AttributeError
  | PyNone => Ok None
  | Val v => Ok (Some v)
  end.

(** Reading an attribute of a value that may be [None]: [None] has none of
    the attributes the methods below read. *)
Definition deref {A : Type} (o : option A) : result A :=
  match o with
  | None => Raise AttributeError
  | Some v => Ok v
  end.

(** ** Process identities *)

(** [PID = uuid.UUID], by its [int], a number below [2 ^ 128]; nothing
    below depends on the bound. *)
Abbreviation PID := N.

(** [a == b], [a < b] on UUIDs compare the integers. *)
Definition pid_eq (a b : PID) : bool := (a =? b)%N.
Definition pid_lt (a b : PID) : bool := (a <? b)%N.

(** ** Dictionaries *)

(** [d[k]] on a plain [dict]. *)
Definition getitem (d : gmap PID Z) (k : PID) : result Z :=
  match d !! k with
  | Some v => Ok v
  | None => Raise KeyError
  end.

(** [d[k]] on a [collections.defaultdict(int)]: a key that is absent is
    first inserted with [int() = 0].  The dictionary after the read comes
    with the value read. *)
Definition getitem_default (d : gmap PID Z) (k : PID) : gmap PID Z * Z :=
  match d !! k with
  | Some v => (d, v)
  | None => (<[k := 0]> d, 0)
  end.

(** [d.items()].  Python iterates in insertion order, [map_to_list] in the
    map's own order; both list every entry once, and the loops below do
    the same work whatever the order (see [lt_loop_spec] and
    [seen_loop_lookup]). *)
Definition items (d : gmap PID Z) : list (PID * Z) := map_to_list d.

(** ** The contract *)

(** [AbstractClock(abc.ABC, Generic[TimeStamp, ExportBundle])] with its four
    abstract methods.  The docstring's properties compare timestamps with
    [<], and the tests read a clock's [process_id] and pass what [export]
    returned on, so the interface carries those too. *)
Class AbstractClock (Clock TimeStamp ExportBundle : Type) : Type := {
  get_time : Clock → Clock * TimeStamp;
  seen_time : Clock → TimeStamp → Clock;
  export : Clock → Clock * ExportBundle;
  create_from_export : PID → ExportBundle → result Clock;
  time_lt : TimeStamp → TimeStamp → result bool;
  clock_pid : Clock → PID;
  bundle_pid : ExportBundle → attr PID;
  bundle_ts : ExportBundle → attr TimeStamp
}.

(** ** Lamport time *)

Module _LamportTimeStamp.

Record t : Type := mk {
  counter : Z;
  process_id : PID
}.

(** [dataclass(order=True)]: [__lt__] compares the tuples
    [(counter, process_id)].  A tuple comparison looks for the first
    position where the items are not [==] and compares those with [<]; two
    tuples of one length with all items equal are not [<]. *)
Definition lt (self other : t) : bool :=
  if negb (counter self =? counter other) then counter self <? counter other
  else if negb (pid_eq (process_id self) (process_id other))
       then pid_lt (process_id self) (process_id other)
  else false.

(** [__eq__]: the tuples of fields are equal. *)
Definition eq (self other : t) : bool :=
  (counter self =? counter other) && pid_eq (process_id self) (process_id other).

End _LamportTimeStamp.

Module _LamportExport.

Record t : Type := mk {
  pid : attr PID;
  ts : attr _LamportTimeStamp.t
}.

End _LamportExport.

Module LamportClock.

Record t : Type := mk {
  process_id : PID;
  counter : Z
}.

(** [__init__]: [uuid4] is the identity [uuid.uuid4()] would draw. *)
Definition init (uuid4 : PID) (process_id : option PID) : t :=
  let process_id :=
    match process_id with
    | None => uuid4
    | Some p => p
    end in
  {| process_id := process_id; counter := 0 |}.

Definition get_time (self : t) : t * _LamportTimeStamp.t :=
  let self := {| process_id := process_id self; counter := counter self + 1 |} in
  (self, _LamportTimeStamp.mk (counter self) (process_id self)).

Definition seen_time (self : t) (ts : _LamportTimeStamp.t) : t :=
  {| process_id := process_id self;
     counter := Z.max (counter self) (_LamportTimeStamp.counter ts) |}.

Definition export (self : t) : t * _LamportExport.t :=
  let '(self, now) := get_time self in
  (self, _LamportExport.mk (Val (process_id self)) (Val now)).

Definition create_from_export (uuid4 : PID) (export : _LamportExport.t) : result t :=
  pid ← getattr (_LamportExport.pid export);
  let c := init uuid4 pid in
  ts ← getattr (_LamportExport.ts export);
  (* [seen_time] reads [ts.counter] *)
  ts ← deref ts;
  Ok (seen_time c ts).

End LamportClock.

#[global] Instance Lamport :
  AbstractClock LamportClock.t _LamportTimeStamp.t _LamportExport.t := {
  get_time := LamportClock.get_time;
  seen_time := LamportClock.seen_time;
  export := LamportClock.export;
  create_from_export := LamportClock.create_from_export;
  time_lt := λ a b, Ok (_LamportTimeStamp.lt a b);
  clock_pid := LamportClock.process_id;
  bundle_pid := _LamportExport.pid;
  bundle_ts := _LamportExport.ts
}.

(** ** Vector time *)

Module _VectorTimeStamp.

Record t : Type := mk {
  timestamps : gmap PID Z
}.

(** The [for] loop of [__lt__] over the items still to visit: [Ok false]
    when it hits [return False], [Ok true] when it runs to its end, a
    [KeyError] when [other.timestamps[pid]] finds no entry. *)
Fixpoint lt_loop (todo : list (PID * Z)) (other : gmap PID Z) : result bool :=
  match todo with
  | [] => Ok true
  | (pid, ts) :: todo =>
      o ← getitem other pid;
      if ts >? o then Ok false else lt_loop todo other
  end.

Definition lt (self other : t) : result bool :=
  if bool_decide (dom (timestamps self) ⊆ dom (timestamps other)) then
    finished ← lt_loop (items (timestamps self)) (timestamps other);
    if (finished : bool)
    then Ok (bool_decide (timestamps self ≠ timestamps other))
    else Ok false
  else Ok false.

(** [dataclass(eq=True)]: the one field is compared, a [dict] with a
    [dict]. *)
Definition eq (self other : t) : bool :=
  bool_decide (timestamps self = timestamps other).

End _VectorTimeStamp.

Module _VectorExport.

Record t : Type := mk {
  pid : attr PID;
  ts : attr _VectorTimeStamp.t
}.

End _VectorExport.

Module VectorClock.

Record t : Type := mk {
  process_id : PID;
  clocks : gmap PID Z
}.

Definition init (uuid4 : PID) (process_id : option PID) : t :=
  let process_id :=
    match process_id with
    | None => uuid4
    | Some p => p
    end in
  {| process_id := process_id; clocks := ∅ |}.

(** [self.clocks[self.process_id] += 1] reads the entry (a [defaultdict]
    read), adds one and stores it; the timestamp holds [dict(self.clocks)],
    a copy, which in a model of values is the map itself. *)
Definition get_time (self : t) : t * _VectorTimeStamp.t :=
  let '(clocks, old) := getitem_default (clocks self) (process_id self) in
  let clocks := <[process_id self := old + 1]> clocks in
  ({| process_id := process_id self; clocks := clocks |},
   _VectorTimeStamp.mk clocks).

(** The [for] loop of [seen_time]: the right-hand side reads
    [self.clocks[pid]] first, then the entry is stored. *)
Fixpoint seen_loop (todo : list (PID * Z)) (clocks : gmap PID Z) : gmap PID Z :=
  match todo with
  | [] => clocks
  | (pid, ts) :: todo =>
      let '(clocks, old) := getitem_default clocks pid in
      seen_loop todo (<[pid := Z.max old ts]> clocks)
  end.

Definition seen_time (self : t) (ts : _VectorTimeStamp.t) : t :=
  {| process_id := process_id self;
     clocks := seen_loop (items (_VectorTimeStamp.timestamps ts)) (clocks self) |}.

Definition export (self : t) : t * _VectorExport.t :=
  let '(self, now) := get_time self in
  (self, _VectorExport.mk (Val (process_id self)) (Val now)).

Definition create_from_export (uuid4 : PID) (export : _VectorExport.t) : result t :=
  pid ← getattr (_VectorExport.pid export);
  let c := init uuid4 pid in
  ts ← getattr (_VectorExport.ts export);
  (* [seen_time] reads [ts.timestamps] *)
  ts ← deref ts;
  Ok (seen_time c ts).

End VectorClock.

#[global] Instance Vector :
  AbstractClock VectorClock.t _VectorTimeStamp.t _VectorExport.t := {
  get_time := VectorClock.get_time;
  seen_time := VectorClock.seen_time;
  export := VectorClock.export;
  create_from_export := VectorClock.create_from_export;
  time_lt := _VectorTimeStamp.lt;
  clock_pid := VectorClock.process_id;
  bundle_pid := _VectorExport.pid;
  bundle_ts := _VectorExport.ts
}.

(** ** Histories of one clock instance *)

Section History.

Context {Clock TimeStamp ExportBundle : Type}.
Context `{!AbstractClock Clock TimeStamp ExportBundle}.

(** What a caller can do with an instance it holds. *)
Inductive call : Type :=
  | GetTime
  | SeenTime (ts : TimeStamp)
  | Export.

(** The timestamp a bundle carries, if it does. *)
Definition carried (e : ExportBundle) : list TimeStamp :=
  match bundle_ts e with
  | Val ts => [ts]
  | _ => []
  end.

(** One call: the instance afterwards and the timestamps handed out. *)
Definition step (c : Clock) (op : call) : Clock * list TimeStamp :=
  match op with
  | GetTime => let '(c, ts) := get_time c in (c, [ts])
  | SeenTime ts => (seen_time c ts, [])
  | Export => let '(c, e) := export c in (c, carried e)
  end.

(** A sequence of calls, with every timestamp handed out on the way. *)
Fixpoint run (c : Clock) (ops : list call) : Clock * list TimeStamp :=
  match ops with
  | [] => (c, [])
  | op :: ops =>
      let '(c, out) := step c op in
      let '(c, outs) := run c ops in
      (c, out ++ outs)
  end.

(** [a < b] evaluates to [True], without an exception. *)
Definition before (a b : TimeStamp) : Prop := time_lt a b = Ok true.

(** The docstring's "time is monoton". *)
Definition local_monotone : Prop :=
  ∀ c : Clock,
    let '(c1, t1) := get_time c in
    let '(_, t2) := get_time c1 in
    before t1 t2.

(** The docstring's "time merge is monoton too", for an instance with any
    past: after [seen_time ts] the next [get_time] is after [ts] and after
    all the instance handed out. *)
Definition merge_monotone : Prop :=
  ∀ (c0 : Clock) (ops : list call) (ts : TimeStamp),
    let '(c, out) := run c0 ops in
    let '(_, now) := get_time (seen_time c ts) in
    before ts now ∧ Forall (λ old, before old now) out.

(** [test_can_restore_clock], for an instance with any past. *)
Definition restore_monotone : Prop :=
  ∀ (c0 : Clock) (ops : list call) (uuid4 : PID),
    let '(c, out) := run c0 ops in
    let '(_, e) := export c in
    ∃ (c2 : Clock) (ets : TimeStamp),
      create_from_export uuid4 e = Ok c2 ∧
      bundle_ts e = Val ets ∧
      clock_pid c2 = clock_pid c ∧
      let '(_, now) := get_time c2 in
      before ets now ∧ Forall (λ old, before old now) out.

Definition observe_idempotent : Prop :=
  ∀ (c : Clock) (ta : TimeStamp),
    seen_time (seen_time c ta) ta = seen_time c ta.

Definition observe_commutative : Prop :=
  ∀ (c : Clock) (ta tb : TimeStamp),
    seen_time (seen_time c ta) tb = seen_time (seen_time c tb) ta.

(** A bundle with both of its fields bound to values. *)
Definition well_formed (e : ExportBundle) : bool :=
  match bundle_pid e, bundle_ts e with
  | Val _, Val _ => true
  | _, _ => false
  end.

(** What [create_from_export] does with a bundle that lacks a field. *)
Definition restore_checks : Prop :=
  ∀ (uuid4 : PID) (e : ExportBundle),
    (bundle_pid e = Missing →
       create_from_export uuid4 e = Raise AttributeError) ∧
    (bundle_ts e = Missing ∨ bundle_ts e = PyNone →
       create_from_export uuid4 e = Raise AttributeError) ∧
    (bundle_pid e = PyNone →
       ∀ ts, bundle_ts e = Val ts →
         ∃ c, create_from_export uuid4 e = Ok c ∧ clock_pid c = uuid4).

End History.

Arguments call : clear implicits.
Arguments restore_checks Clock {_ _ _}.
Arguments local_monotone Clock {_ _ _}.
Arguments merge_monotone Clock {_ _ _}.
Arguments restore_monotone Clock {_ _ _}.
Arguments observe_idempotent Clock {_ _ _}.
Arguments observe_commutative Clock {_ _ _}.

(** ** Orders on frontiers *)

(** Every entry of [A] has an entry in [B] that is at least as large. *)
Definition dominated (A B : gmap PID Z) : Prop :=
  ∀ k v, A !! k = Some v → ∃ w, B !! k = Some w ∧ v ≤ w.

(** The rule in the specification's words: an entry of [A] is compared
    with [B]'s, and with 0 where [B] has none. *)
Definition spec_le (A B : gmap PID Z) : Prop :=
  ∀ k v, A !! k = Some v → v ≤ default 0 (B !! k).

Definition spec_lt (A B : gmap PID Z) : Prop := spec_le A B ∧ A ≠ B.

(** The frontier after a local tick of [pid]. *)
Definition tick (m : gmap PID Z) (pid : PID) : gmap PID Z :=
  <[pid := default 0 (m !! pid) + 1]> m.

(** ** What a clock has reached *)

(** [past]: the scalar clock has counted at least as far as [ts]. *)
Definition lamport_past (c : LamportClock.t) (ts : _LamportTimeStamp.t) : Prop :=
  _LamportTimeStamp.counter ts ≤ LamportClock.counter c.

(** [past]: the frontier holds every entry of [ts], at least as large. *)
Definition vector_past (c : VectorClock.t) (ts : _VectorTimeStamp.t) : Prop :=
  dominated (_VectorTimeStamp.timestamps ts) (VectorClock.clocks c).

(** ** Scenarios *)

(** The specification's literal scenario, with A = 10 and B = 11: A ticks
    twice, B ticks once, A observes B's timestamp and ticks. *)
Definition scenario : _VectorTimeStamp.t * _VectorTimeStamp.t :=
  let a := VectorClock.init 10%N None in
  let b := VectorClock.init 11%N None in
  let '(a, _) := VectorClock.get_time a in
  let '(a, _) := VectorClock.get_time a in
  let '(b, tb) := VectorClock.get_time b in
  let a := VectorClock.seen_time a tb in
  let '(a, ta) := VectorClock.get_time a in
  (ta, tb).

(** [test_comunication_is_monoton] on either kind, with the identities 10
    and 11 drawn. *)
Definition communicate {Clock TimeStamp ExportBundle : Type}
    `{!AbstractClock Clock TimeStamp ExportBundle}
    (c1 c2 : Clock) : list (result bool) :=
  let '(c1, t1_before) := get_time c1 in
  let '(c2, t2_before) := get_time c2 in
  let c2 := seen_time c2 t1_before in
  let c1 := seen_time c1 t2_before in
  let '(c1, t1_after) := get_time c1 in
  let '(c2, t2_after) := get_time c2 in
  [time_lt t1_before t1_after; time_lt t2_before t1_after;
   time_lt t1_before t2_after; time_lt t2_before t2_after].

(** [test_can_restore_clock]: ten ticks, one more for [ts], an export, and
    a clock restored from the bundle (7 stands for a draw that is not
    used). *)
Definition restore {Clock TimeStamp ExportBundle : Type}
    `{!AbstractClock Clock TimeStamp ExportBundle}
    (c1 : Clock) : result (bool * result bool) :=
  let '(c1, _) := run c1 (replicate 10 GetTime) in
  let '(c1, ts) := get_time c1 in
  let '(c1, e) := export c1 in
  c2 ← create_from_export 7%N e;
  Ok (pid_eq (clock_pid c1) (clock_pid c2), time_lt ts (get_time c2).2).

(** ** The other comparisons of a scalar timestamp *)

(** [self.int <= other.int], [self.int > other.int] and
    [self.int >= other.int] of [uuid.UUID]. *)
Definition pid_le (a b : PID) : bool := (a <=? b)%N.
Definition pid_gt (a b : PID) : bool := (b <? a)%N.
Definition pid_ge (a b : PID) : bool := (b <=? a)%N.

(** [dataclass(order=True)] generates [__le__], [__gt__] and [__ge__] next
    to [__lt__], each the comparison of that name on the tuples
    [(counter, process_id)]: the first position where the items are not
    [==] decides, by the operator on those items; tuples that are equal
    throughout compare as their lengths do, which are equal. *)
Definition lamport_le (self other : _LamportTimeStamp.t) : bool :=
  if negb (_LamportTimeStamp.counter self =? _LamportTimeStamp.counter other)
  then _LamportTimeStamp.counter self <=? _LamportTimeStamp.counter other
  else if negb (pid_eq (_LamportTimeStamp.process_id self)
                       (_LamportTimeStamp.process_id other))
       then pid_le (_LamportTimeStamp.process_id self)
                   (_LamportTimeStamp.process_id other)
  else true.

Definition lamport_gt (self other : _LamportTimeStamp.t) : bool :=
  if negb (_LamportTimeStamp.counter self =? _LamportTimeStamp.counter other)
  then _LamportTimeStamp.counter self >? _LamportTimeStamp.counter other
  else if negb (pid_eq (_LamportTimeStamp.process_id self)
                       (_LamportTimeStamp.process_id other))
       then pid_gt (_LamportTimeStamp.process_id self)
                   (_LamportTimeStamp.process_id other)
  else false.

Definition lamport_ge (self other : _LamportTimeStamp.t) : bool :=
  if negb (_LamportTimeStamp.counter self =? _LamportTimeStamp.counter other)
  then _LamportTimeStamp.counter self >=? _LamportTimeStamp.counter other
  else if negb (pid_eq (_LamportTimeStamp.process_id self)
                       (_LamportTimeStamp.process_id other))
       then pid_ge (_LamportTimeStamp.process_id self)
                   (_LamportTimeStamp.process_id other)
  else true.

(** ** Clocks that came from a constructor *)

(** No entry below zero. *)
Definition frontier_nonneg (m : gmap PID Z) : Prop :=
  ∀ k v, m !! k = Some v → 0 ≤ v.

(** A frontier [m] bounds another from above. *)
Definition upper_bound (m : gmap PID Z) (c ts : gmap PID Z) : Prop :=
  dominated c m ∧ dominated ts m.

(** A clock as a constructor leaves it: [LamportClock(...)],
    [VectorClock(...)], or [create_from_export] on any bundle it accepts. *)
Definition lamport_constructed (c : LamportClock.t) : Prop :=
  (∃ uuid4 p, c = LamportClock.init uuid4 p) ∨
  (∃ uuid4 e, LamportClock.create_from_export uuid4 e = Ok c).

Definition vector_constructed (c : VectorClock.t) : Prop :=
  (∃ uuid4 p, c = VectorClock.init uuid4 p) ∨
  (∃ uuid4 e, VectorClock.create_from_export uuid4 e = Ok c).

(** * Properties *)

(** ** Dictionaries *)

Lemma getitem_default_value (d : gmap PID Z) (k : PID) :
  (getitem_default d k).2 = default 0 (d !! k).
Proof. unfold getitem_default. by destruct (d !! k). Qed.

Lemma getitem_default_store (d : gmap PID Z) (k : PID) (v : Z) :
  <[k := v]> (getitem_default d k).1 = <[k := v]> d.
Proof.
  unfold getitem_default. destruct (d !! k); simpl; [done|].
  apply insert_insert_eq.
Qed.

(** ** The vector order *)

Lemma dominated_refl (A : gmap PID Z) : dominated A A.
Proof. intros k v ?. exists v. split; [done | lia]. Qed.

Lemma dominated_trans (A B C : gmap PID Z) :
  dominated A B → dominated B C → dominated A C.
Proof.
  intros HAB HBC k v Hk.
  destruct (HAB k v Hk) as (w & Hw & ?).
  destruct (HBC k w Hw) as (x & Hx & ?).
  exists x. split; [done | lia].
Qed.

Lemma dominated_antisym (A B : gmap PID Z) :
  dominated A B → dominated B A → A = B.
Proof.
  intros HAB HBA. apply map_eq. intros k.
  destruct (A !! k) as [v|] eqn:HA.
  - destruct (HAB k v HA) as (w & Hw & ?).
    destruct (HBA k w Hw) as (v' & Hv' & ?).
    rewrite Hw. f_equal. simplify_eq. lia.
  - destruct (B !! k) as [w|] eqn:HB; [|done].
    destruct (HBA k w HB) as (v' & Hv' & ?). congruence.
Qed.

Lemma dominated_dom (A B : gmap PID Z) : dominated A B → dom A ⊆ dom B.
Proof.
  intros H k [v Hv]%elem_of_dom.
  destruct (H k v Hv) as (w & Hw & _). apply elem_of_dom. by exists w.
Qed.

Section LtLoop.

Import _VectorTimeStamp.

(** With every key there, the loop raises nothing. *)
Lemma lt_loop_total (todo : list (PID * Z)) (other : gmap PID Z) :
  Forall (λ kv, is_Some (other !! kv.1)) todo →
  ∃ b, lt_loop todo other = Ok b.
Proof.
  induction 1 as [|[k v] todo [w Hw] _ IH]; simpl; [by eexists|].
  simpl in Hw. unfold getitem. rewrite Hw. simpl.
  destruct (v >? w); [by eexists | done].
Qed.

(** It runs to its end exactly when no visited entry exceeds [other]'s. *)
Lemma lt_loop_spec (todo : list (PID * Z)) (other : gmap PID Z) :
  lt_loop todo other = Ok true ↔
  Forall (λ kv, ∃ w, other !! kv.1 = Some w ∧ kv.2 ≤ w) todo.
Proof.
  induction todo as [|[k v] todo IH]; simpl.
  - split; [by constructor | done].
  - unfold getitem. destruct (other !! k) as [w|] eqn:Hw; simpl.
    + destruct (Z.gtb_spec v w) as [Hgt|Hle].
      * split; [done|]. intros [(w' & ? & ?) _]%Forall_cons. simpl in *.
        simplify_eq. lia.
      * rewrite IH. split.
        -- intros ?. constructor; [|done]. exists w. by split.
        -- by intros [_ ?]%Forall_cons.
    + split; [done|]. intros [(w' & ? & ?) _]%Forall_cons. simpl in *.
      congruence.
Qed.

Lemma lt_loop_items (A B : gmap PID Z) :
  lt_loop (items A) B = Ok true ↔ dominated A B.
Proof.
  rewrite lt_loop_spec, Forall_forall. unfold items, dominated. split.
  - intros H k v Hk. by apply (H (k, v)), elem_of_map_to_list.
  - intros H [k v] Hk%elem_of_map_to_list. by apply H.
Qed.

(** [__lt__] never raises: the subset test guards the lookups. *)
Lemma lt_total (a b : t) : lt a b = Ok true ∨ lt a b = Ok false.
Proof.
  unfold lt. case_bool_decide as Hsub; [|by right].
  destruct (lt_loop_total (items (timestamps a)) (timestamps b)) as [fin Hfin].
  - apply Forall_forall. intros [k v] Hk%elem_of_map_to_list. simpl.
    apply elem_of_dom, Hsub, elem_of_dom. by exists v.
  - rewrite Hfin. simpl. destruct fin; [|by right].
    case_bool_decide; [by left | by right].
Qed.

Lemma lt_true (a b : t) :
  lt a b = Ok true ↔
  dominated (timestamps a) (timestamps b) ∧ timestamps a ≠ timestamps b.
Proof.
  unfold lt. split.
  - case_bool_decide as Hsub; [|done].
    destruct (lt_loop _ _) as [[]|] eqn:Hloop; simpl; try done.
    apply lt_loop_items in Hloop. case_bool_decide; [|done]. by intros _.
  - intros [Hdom Hne].
    rewrite bool_decide_eq_true_2 by by apply dominated_dom.
    apply lt_loop_items in Hdom. rewrite Hdom. simpl.
    by rewrite bool_decide_eq_true_2.
Qed.

Lemma lt_false (a b : t) :
  lt a b = Ok false ↔
  ¬ (dominated (timestamps a) (timestamps b) ∧ timestamps a ≠ timestamps b).
Proof.
  rewrite <- lt_true. destruct (lt_total a b) as [H|H]; rewrite H; split;
    try done; intros; congruence.
Qed.

End LtLoop.

(** [A ≤ B < C] gives [A < C]. *)
Lemma dominated_lt_ne (A B C : gmap PID Z) :
  dominated A B → dominated B C → B ≠ C → A ≠ C.
Proof.
  intros HAB HBC Hne ->. apply Hne.
  by apply dominated_antisym.
Qed.

(** ** The vector clock's frontier *)

Section Frontier.

Import VectorClock.

Lemma get_time_tick (self : t) :
  get_time self =
    ({| process_id := process_id self;
        clocks := tick (clocks self) (process_id self) |},
     _VectorTimeStamp.mk (tick (clocks self) (process_id self))).
Proof.
  unfold get_time, tick.
  pose proof (getitem_default_value (clocks self) (process_id self)) as Hv.
  pose proof (getitem_default_store (clocks self) (process_id self)) as Hs.
  destruct (getitem_default _ _) as [m old]. simpl in *. subst old.
  by rewrite Hs.
Qed.

Lemma tick_dominated (m : gmap PID Z) (pid : PID) : dominated m (tick m pid).
Proof.
  intros k v Hk. unfold tick. destruct (decide (pid = k)) as [->|Hne].
  - rewrite lookup_insert_eq, Hk. simpl. eexists. split; [done | lia].
  - rewrite lookup_insert_ne by done. exists v. split; [done | lia].
Qed.

Lemma tick_ne (m : gmap PID Z) (pid : PID) : m ≠ tick m pid.
Proof.
  intros Heq. apply (f_equal (λ x : gmap PID Z, x !! pid)) in Heq.
  unfold tick in Heq. rewrite lookup_insert_eq in Heq.
  destruct (m !! pid); simpl in *; simplify_eq. lia.
Qed.

(** What the merge loop leaves at each key, for items with distinct keys
    (as the items of a dictionary are). *)
Lemma seen_loop_lookup (todo : list (PID * Z)) (m : gmap PID Z) (k : PID) :
  NoDup todo.*1 →
  seen_loop todo m !! k =
    match (list_to_map todo : gmap PID Z) !! k with
    | Some ts => Some (Z.max (default 0 (m !! k)) ts)
    | None => m !! k
    end.
Proof.
  revert m. induction todo as [|[p ts] todo IH]; intros m Hnd; simpl.
  - by rewrite lookup_empty.
  - apply NoDup_cons in Hnd as [Hp Hnd].
    pose proof (getitem_default_value m p) as Hv.
    pose proof (getitem_default_store m p) as Hs.
    destruct (getitem_default m p) as [m' old]. simpl in *. subst old.
    rewrite Hs, IH by done.
    destruct (decide (p = k)) as [->|Hne].
    + rewrite (not_elem_of_list_to_map_1 _ _ Hp).
      by rewrite !lookup_insert_eq.
    + by rewrite !lookup_insert_ne by done.
Qed.

Lemma seen_time_lookup (self : t) (ts : _VectorTimeStamp.t) (k : PID) :
  clocks (seen_time self ts) !! k =
    match _VectorTimeStamp.timestamps ts !! k with
    | Some v => Some (Z.max (default 0 (clocks self !! k)) v)
    | None => clocks self !! k
    end.
Proof.
  unfold seen_time, items. simpl.
  rewrite seen_loop_lookup by apply NoDup_fst_map_to_list.
  by rewrite list_to_map_to_list.
Qed.

Lemma seen_time_grows (self : t) (ts : _VectorTimeStamp.t) :
  dominated (clocks self) (clocks (seen_time self ts)).
Proof.
  intros k v Hk. rewrite seen_time_lookup, Hk. simpl.
  destruct (_VectorTimeStamp.timestamps ts !! k) as [w|].
  - exists (Z.max v w). split; [done | lia].
  - exists v. split; [done | lia].
Qed.

Lemma seen_time_covers (self : t) (ts : _VectorTimeStamp.t) :
  dominated (_VectorTimeStamp.timestamps ts) (clocks (seen_time self ts)).
Proof.
  intros k v Hk. rewrite seen_time_lookup, Hk.
  eexists. split; [done | lia].
Qed.

End Frontier.

(** ** Histories *)

Section Past.

Context {Clock TimeStamp ExportBundle : Type}.
Context `{!AbstractClock Clock TimeStamp ExportBundle}.

(** [past c ts]: the instance in state [c] is at or beyond [ts]. *)
Variable past : Clock → TimeStamp → Prop.

Hypothesis past_step : ∀ c op ts, past c ts → past (step c op).1 ts.
Hypothesis past_out : ∀ c op, Forall (past (step c op).1) (step c op).2.

Lemma run_keeps (c : Clock) (ops : list (call TimeStamp)) (ts : TimeStamp) :
  past c ts → past (run c ops).1 ts.
Proof.
  revert c. induction ops as [|op ops IH]; intros c Hc; simpl; [done|].
  specialize (past_step c op ts Hc).
  destruct (step c op) as [c1 out]. specialize (IH c1 past_step).
  by destruct (run c1 ops).
Qed.

(** Everything an instance handed out lies in its past. *)
Lemma run_past (c : Clock) (ops : list (call TimeStamp)) :
  Forall (past (run c ops).1) (run c ops).2.
Proof.
  revert c. induction ops as [|op ops IH]; intros c; simpl; [constructor|].
  pose proof (past_out c op) as Hout.
  destruct (step c op) as [c1 out]. simpl in Hout.
  specialize (IH c1). pose proof (λ ts, run_keeps c1 ops ts) as Hkeep.
  destruct (run c1 ops) as [c2 outs]. simpl in *.
  apply Forall_app. split; [|done].
  eapply Forall_impl; [exact Hout | exact Hkeep].
Qed.

End Past.

Section LamportPast.

Import LamportClock.

Lemma lamport_past_step (c : t) (op : call _LamportTimeStamp.t)
    (ts : _LamportTimeStamp.t) :
  lamport_past c ts → lamport_past (step c op).1 ts.
Proof. unfold lamport_past. destruct op; simpl; lia. Qed.

Lemma lamport_past_out (c : t) (op : call _LamportTimeStamp.t) :
  Forall (lamport_past (step c op).1) (step c op).2.
Proof.
  destruct op; simpl; repeat constructor; unfold lamport_past; simpl; lia.
Qed.

(** A larger counter decides the comparison, whatever the identities. *)
Lemma lamport_lt_counter (a b : _LamportTimeStamp.t) :
  _LamportTimeStamp.counter a < _LamportTimeStamp.counter b →
  _LamportTimeStamp.lt a b = true.
Proof.
  intros Hlt. unfold _LamportTimeStamp.lt.
  destruct (Z.eqb_spec (_LamportTimeStamp.counter a) (_LamportTimeStamp.counter b));
    simpl; [lia|]. by apply Z.ltb_lt.
Qed.

End LamportPast.

Section VectorPast.

Import VectorClock.

(** Entries of the frontier are only added or raised by a call. *)
Lemma step_grows (c : t) (op : call _VectorTimeStamp.t) :
  dominated (clocks c) (clocks (step c op).1).
Proof.
  destruct op as [|ts|]; simpl.
  - rewrite get_time_tick. apply tick_dominated.
  - apply seen_time_grows.
  - unfold export. rewrite get_time_tick. apply tick_dominated.
Qed.

Lemma vector_past_step (c : t) (op : call _VectorTimeStamp.t)
    (ts : _VectorTimeStamp.t) :
  vector_past c ts → vector_past (step c op).1 ts.
Proof. intros H. eapply dominated_trans; [exact H | apply step_grows]. Qed.

Lemma vector_past_out (c : t) (op : call _VectorTimeStamp.t) :
  Forall (vector_past (step c op).1) (step c op).2.
Proof.
  destruct op as [|ts|]; simpl.
  - rewrite get_time_tick. repeat constructor. apply dominated_refl.
  - constructor.
  - unfold export. rewrite get_time_tick. repeat constructor.
    apply dominated_refl.
Qed.

(** A tick puts the clock after all of its past. *)
Lemma vector_past_before (c : t) (old : _VectorTimeStamp.t) :
  vector_past c old → _VectorTimeStamp.lt old (get_time c).2 = Ok true.
Proof.
  intros H. rewrite get_time_tick. apply lt_true. simpl. split.
  - eapply dominated_trans; [exact H | apply tick_dominated].
  - eapply dominated_lt_ne; [exact H | apply tick_dominated | apply tick_ne].
Qed.

End VectorPast.

(** ** The contract's properties *)

(** C1. Local monotonicity: on any instance of either kind, two successive
    [get_time] calls return [t1] and then [t2] with [t1 < t2]. *)
Theorem local_monotonicity :
  local_monotone LamportClock.t ∧ local_monotone VectorClock.t.
Proof.
  split; intros c; simpl.
  - unfold before. simpl. f_equal. apply lamport_lt_counter. simpl. lia.
  - rewrite get_time_tick.
    set (c1 := VectorClock.mk _ _). set (t1 := _VectorTimeStamp.mk _).
    assert (vector_past c1 t1) as H%vector_past_before by apply dominated_refl.
    by destruct (VectorClock.get_time c1).
Qed.


(** C3. Restore monotonicity: an instance of either kind with any past is
    exported; [create_from_export] on the bundle succeeds, the restored
    clock has the original's process identity, and its first [get_time]
    is after the bundle's timestamp and after every timestamp the
    original handed out. *)
Theorem restore_monotonicity :
  restore_monotone LamportClock.t ∧ restore_monotone VectorClock.t.
Proof.
  split; intros c0 ops uuid4.
  - pose proof (run_past lamport_past lamport_past_step lamport_past_out
                  c0 ops) as Hpast.
    destruct (run c0 ops) as [c out]. simpl in *.
    eexists _, _. repeat split.
    + unfold before. simpl. f_equal. apply lamport_lt_counter. simpl. lia.
    + eapply Forall_impl; [exact Hpast|]. intros old Hold.
      unfold before. simpl. f_equal. apply lamport_lt_counter.
      unfold lamport_past in Hold. simpl. lia.
  - pose proof (run_past vector_past vector_past_step vector_past_out
                  c0 ops) as Hpast.
    destruct (run c0 ops) as [c out]. simpl in *.
    unfold VectorClock.export. rewrite get_time_tick.
    eexists _, _. split; [reflexivity|]. split; [reflexivity|].
    split; [reflexivity|].
    set (ets := _VectorTimeStamp.mk _).
    set (c2 := VectorClock.seen_time _ ets).
    pose proof (vector_past_before c2) as Hnow.
    destruct (VectorClock.get_time c2) as [c' now]. simpl in Hnow. split.
    + apply Hnow, seen_time_covers.
    + eapply Forall_impl; [exact Hpast|]. intros old Hold. simpl.
      apply Hnow. eapply dominated_trans; [exact Hold|].
      eapply dominated_trans; [apply tick_dominated|].
      apply (seen_time_covers _ ets).
Qed.

(** ** The vector comparison *)

Lemma dominated_spec_le (A B : gmap PID Z) :
  dominated A B ↔ dom A ⊆ dom B ∧ spec_le A B.
Proof.
  split.
  - intros H. split; [by apply dominated_dom|].
    intros k v Hk. destruct (H k v Hk) as (w & -> & ?). done.
  - intros [Hsub Hle] k v Hk.
    assert (is_Some (B !! k)) as [w Hw].
    { apply elem_of_dom, Hsub, elem_of_dom. by exists v. }
    exists w. split; [done|]. specialize (Hle k v Hk). by rewrite Hw in Hle.
Qed.

(** C4, as stated, fails: [{1: 0}] against the empty timestamp meets the
    stated rule, and [__lt__] answers [False]. *)
Lemma vector_comparison_zero_entry :
  let A := _VectorTimeStamp.mk {[ 1%N := 0 ]} in
  let B := _VectorTimeStamp.mk ∅ in
  spec_lt (_VectorTimeStamp.timestamps A) (_VectorTimeStamp.timestamps B) ∧
  _VectorTimeStamp.lt A B = Ok false.
Proof.
  simpl. split; [|by vm_compute]. split.
  - intros k v [<- <-]%lookup_singleton_Some. by rewrite lookup_empty.
  - intros H. apply (f_equal (λ m : gmap PID Z, m !! 1%N)) in H.
    by rewrite lookup_singleton_eq, lookup_empty in H.
Qed.

(** C4, amended. [A < B] holds iff every key of [A] is a key of [B],
    [A ≤ B] and [A ≠ B], where [A ≤ B] compares each entry of [A] with
    [B]'s; the comparison raises nothing. *)
Theorem vector_comparison_rule (a b : _VectorTimeStamp.t) :
  let A := _VectorTimeStamp.timestamps a in
  let B := _VectorTimeStamp.timestamps b in
  (_VectorTimeStamp.lt a b = Ok true ↔ dom A ⊆ dom B ∧ spec_le A B ∧ A ≠ B) ∧
  (_VectorTimeStamp.lt a b = Ok false ↔ ¬ (dom A ⊆ dom B ∧ spec_le A B ∧ A ≠ B)).
Proof.
  simpl. rewrite lt_true, lt_false, dominated_spec_le. split; split; tauto.
Qed.

(** C10. [<] on vector timestamps, over all mappings, is a strict partial
    order: irreflexive, transitive and asymmetric. *)
Theorem vector_lt_strict_order :
  (∀ a, _VectorTimeStamp.lt a a = Ok false) ∧
  (∀ a b c, _VectorTimeStamp.lt a b = Ok true →
            _VectorTimeStamp.lt b c = Ok true →
            _VectorTimeStamp.lt a c = Ok true) ∧
  (∀ a b, _VectorTimeStamp.lt a b = Ok true →
          _VectorTimeStamp.lt b a = Ok false).
Proof.
  split; [|split].
  - intros a. apply lt_false. tauto.
  - intros a b c [Hab Hne]%lt_true [Hbc Hne']%lt_true. apply lt_true. split.
    + by eapply dominated_trans.
    + by eapply dominated_lt_ne.
  - intros a b [Hab Hne]%lt_true. apply lt_false. intros [Hba _].
    by apply Hne, dominated_antisym.
Qed.

(** A chain [{1: 1} < {1: 2} < {1: 2, 2: 1}], closed by transitivity. *)
Lemma vector_lt_chain :
  let a := _VectorTimeStamp.mk {[ 1%N := 1 ]} in
  let b := _VectorTimeStamp.mk {[ 1%N := 2 ]} in
  let c := _VectorTimeStamp.mk (<[ 2%N := 1 ]> {[ 1%N := 2 ]}) in
  _VectorTimeStamp.lt a b = Ok true ∧
  _VectorTimeStamp.lt b c = Ok true ∧
  _VectorTimeStamp.lt a c = Ok true.
Proof.
  intros a b c.
  assert (_VectorTimeStamp.lt a b = Ok true) as Hab by (by vm_compute).
  assert (_VectorTimeStamp.lt b c = Ok true) as Hbc by (by vm_compute).
  split; [exact Hab|]. split; [exact Hbc|].
  exact (proj1 (proj2 vector_lt_strict_order) a b c Hab Hbc).
Defined.

(** ** The scalar order *)

Lemma lamport_lt_iff (t1 t2 : _LamportTimeStamp.t) :
  _LamportTimeStamp.lt t1 t2 = true ↔
  _LamportTimeStamp.counter t1 < _LamportTimeStamp.counter t2 ∨
  (_LamportTimeStamp.counter t1 = _LamportTimeStamp.counter t2 ∧
   (_LamportTimeStamp.process_id t1 < _LamportTimeStamp.process_id t2)%N).
Proof.
  unfold _LamportTimeStamp.lt, pid_eq, pid_lt.
  destruct (Z.eqb_spec (_LamportTimeStamp.counter t1)
              (_LamportTimeStamp.counter t2)) as [Hc|Hc]; simpl.
  - destruct (N.eqb_spec (_LamportTimeStamp.process_id t1)
                (_LamportTimeStamp.process_id t2)) as [Hp|Hp]; simpl.
    + split; [done|]. intros [?|[_ ?]]; lia.
    + rewrite N.ltb_lt. split; [by right|]. intros [?|[_ ?]]; [lia|done].
  - rewrite Z.ltb_lt. split; [by left|]. intros [?|[? _]]; [done|lia].
Qed.

(** X14. [test_lamport_time_is_always_ordered]: two clocks fresh from
    [LamportClock()] whose draws of [uuid4] differ; both first counters
    are 1, and the draws decide. *)
Lemma fresh_scalar_clocks_ordered (u1 u2 : PID) :
  u1 ≠ u2 →
  let t1 := (LamportClock.get_time (LamportClock.init u1 None)).2 in
  let t2 := (LamportClock.get_time (LamportClock.init u2 None)).2 in
  _LamportTimeStamp.lt t1 t2 = true ∨ _LamportTimeStamp.lt t2 t1 = true.
Proof.
  intros Hne t1 t2. rewrite !lamport_lt_iff. subst t1 t2. simpl. lia.
Qed.

(** C5. Scalar totality: of two Lamport timestamps with distinct process
    identities exactly one is [<] the other and they are not equal; [<]
    compares the counters and, when these are equal, the identities. *)
Theorem scalar_totality (t1 t2 : _LamportTimeStamp.t) :
  _LamportTimeStamp.process_id t1 ≠ _LamportTimeStamp.process_id t2 →
  xorb (_LamportTimeStamp.lt t1 t2) (_LamportTimeStamp.lt t2 t1) = true ∧
  t1 ≠ t2 ∧
  _LamportTimeStamp.eq t1 t2 = false ∧
  (_LamportTimeStamp.lt t1 t2 = true ↔
     _LamportTimeStamp.counter t1 < _LamportTimeStamp.counter t2 ∨
     (_LamportTimeStamp.counter t1 = _LamportTimeStamp.counter t2 ∧
      (_LamportTimeStamp.process_id t1 < _LamportTimeStamp.process_id t2)%N)).
Proof.
  intros Hne. split; [|split; [|split]].
  - destruct (_LamportTimeStamp.lt t1 t2) eqn:H12;
      destruct (_LamportTimeStamp.lt t2 t1) eqn:H21; simpl; try done.
    + apply lamport_lt_iff in H12, H21. lia.
    + apply not_true_iff_false in H12, H21.
      rewrite lamport_lt_iff in H12, H21. lia.
  - congruence.
  - unfold _LamportTimeStamp.eq, pid_eq. apply andb_false_iff. right.
    by apply N.eqb_neq.
  - apply lamport_lt_iff.
Qed.

(** Two scalar clocks fresh from [LamportClock()], with their two draws of
    [uuid4] distinct: the first timestamps are ordered by the draws. *)
Lemma scalar_totality_fresh :
  let t1 := (LamportClock.get_time (LamportClock.init 1%N None)).2 in
  let t2 := (LamportClock.get_time (LamportClock.init 2%N None)).2 in
  xorb (_LamportTimeStamp.lt t1 t2) (_LamportTimeStamp.lt t2 t1) = true ∧
  t1 ≠ t2 ∧
  _LamportTimeStamp.eq t1 t2 = false ∧
  (_LamportTimeStamp.lt t1 t2 = true ↔
     _LamportTimeStamp.counter t1 < _LamportTimeStamp.counter t2 ∨
     (_LamportTimeStamp.counter t1 = _LamportTimeStamp.counter t2 ∧
      (_LamportTimeStamp.process_id t1 < _LamportTimeStamp.process_id t2)%N)).
Proof.
  apply (scalar_totality
           (LamportClock.get_time (LamportClock.init 1%N None)).2
           (LamportClock.get_time (LamportClock.init 2%N None)).2).
  simpl. lia.
Defined.

(** ** Independent vector clocks *)

(** The first tick of a fresh frontier holds one entry; two of them for
    distinct identities are unrelated. *)
Lemma first_ticks_unrelated (q1 q2 : PID) :
  q1 ≠ q2 →
  _VectorTimeStamp.lt (_VectorTimeStamp.mk (tick ∅ q1))
                      (_VectorTimeStamp.mk (tick ∅ q2)) = Ok false ∧
  tick ∅ q1 ≠ tick ∅ q2.
Proof.
  intros Hne.
  assert (tick ∅ q1 !! q1 = Some 1) as H1 by apply lookup_insert_eq.
  assert (tick ∅ q2 !! q1 = None) as H21.
  { unfold tick. by rewrite lookup_insert_ne, lookup_empty. }
  split.
  - apply lt_false. cbn [_VectorTimeStamp.timestamps]. intros [Hdom _].
    destruct (Hdom q1 1 H1) as (w & Hw & _). congruence.
  - intros Heq. rewrite Heq in H1. congruence.
Qed.

(** C6. Vector independence: two vector clocks fresh from their
    constructor, with distinct process identities, hand out first
    timestamps [t1] and [t2] for which [t1 < t2] and [t2 < t1] both
    evaluate to [False], raising nothing, and [t1 != t2]. *)
Theorem vector_independence (u1 u2 : PID) (p1 p2 : option PID) :
  let c1 := VectorClock.init u1 p1 in
  let c2 := VectorClock.init u2 p2 in
  VectorClock.process_id c1 ≠ VectorClock.process_id c2 →
  let t1 := (VectorClock.get_time c1).2 in
  let t2 := (VectorClock.get_time c2).2 in
  _VectorTimeStamp.lt t1 t2 = Ok false ∧
  _VectorTimeStamp.lt t2 t1 = Ok false ∧
  t1 ≠ t2 ∧
  _VectorTimeStamp.eq t1 t2 = false.
Proof.
  intros c1 c2 Hne t1 t2. subst t1 t2. rewrite !get_time_tick.
  cbn [snd]. change (VectorClock.clocks c1) with (∅ : gmap PID Z).
  change (VectorClock.clocks c2) with (∅ : gmap PID Z).
  destruct (first_ticks_unrelated _ _ Hne) as [H12 Hdiff].
  destruct (first_ticks_unrelated _ _ (not_eq_sym Hne)) as [H21 _].
  split; [exact H12|]. split; [exact H21|]. split.
  - intros Heq. apply Hdiff.
    exact (f_equal _VectorTimeStamp.timestamps Heq).
  - unfold _VectorTimeStamp.eq. by apply bool_decide_eq_false_2.
Qed.

(** Two clocks fresh from [VectorClock()], the draws being 1 and 2. *)
Lemma vector_independence_fresh :
  VectorClock.process_id (VectorClock.init 1%N None) ≠
    VectorClock.process_id (VectorClock.init 2%N None) ∧
  let t1 := (VectorClock.get_time (VectorClock.init 1%N None)).2 in
  let t2 := (VectorClock.get_time (VectorClock.init 2%N None)).2 in
  _VectorTimeStamp.lt t1 t2 = Ok false ∧
  _VectorTimeStamp.lt t2 t1 = Ok false ∧
  t1 ≠ t2 ∧
  _VectorTimeStamp.eq t1 t2 = false.
Proof.
  assert (VectorClock.process_id (VectorClock.init 1%N None) ≠
            VectorClock.process_id (VectorClock.init 2%N None)) as Hne
    by (simpl; lia).
  split; [exact Hne|].
  exact (vector_independence 1%N 2%N None None Hne).
Defined.

(** ** Merging *)

Lemma vector_clock_eq (a b : VectorClock.t) :
  VectorClock.process_id a = VectorClock.process_id b →
  VectorClock.clocks a = VectorClock.clocks b →
  a = b.
Proof. destruct a, b. simpl. by intros -> ->. Qed.

(** C7. [seen_time] is idempotent and commutative on either kind of
    clock: merging a timestamp twice leaves the state of merging it once,
    and two timestamps merged in either order leave the same state. *)
Theorem observe_idempotent_commutative :
  (observe_idempotent LamportClock.t ∧ observe_commutative LamportClock.t) ∧
  (observe_idempotent VectorClock.t ∧ observe_commutative VectorClock.t).
Proof.
  split; split.
  - intros c ta. simpl. unfold LamportClock.seen_time. simpl. f_equal. lia.
  - intros c ta tb. simpl. unfold LamportClock.seen_time. simpl. f_equal. lia.
  - intros c ta. simpl. apply vector_clock_eq; [done|].
    apply map_eq. intros k. rewrite !seen_time_lookup.
    destruct (_VectorTimeStamp.timestamps ta !! k) as [v|]; [|done].
    simpl. f_equal. lia.
  - intros c ta tb. simpl. apply vector_clock_eq; [done|].
    apply map_eq. intros k. rewrite !seen_time_lookup.
    destruct (_VectorTimeStamp.timestamps ta !! k) as [v|],
      (_VectorTimeStamp.timestamps tb !! k) as [w|]; simpl; try done.
    f_equal. lia.
Qed.

(** ** Growth of the frontier *)

(** Through any sequence of calls. *)
Lemma run_grows (c : VectorClock.t) (ops : list (call _VectorTimeStamp.t)) :
  dominated (VectorClock.clocks c) (VectorClock.clocks (run c ops).1).
Proof.
  revert c. induction ops as [|op ops IH]; intros c; simpl.
  - apply dominated_refl.
  - pose proof (step_grows c op) as Hstep.
    destruct (step c op) as [c1 out]. specialize (IH c1).
    destruct (run c1 ops) as [c2 outs]. simpl in *.
    by eapply dominated_trans.
Qed.

(** C8. Frontier growth: [get_time], [seen_time] and [export] leave every
    key of the frontier present with a value at least its previous one,
    and so does any sequence of them; [create_from_export] builds its
    frontier from the empty one of a new instance by one [seen_time], and
    the result holds every key of the bundle's timestamp with at least its
    value. *)
Theorem frontier_growth :
  (∀ c, dominated (VectorClock.clocks c)
          (VectorClock.clocks (VectorClock.get_time c).1)) ∧
  (∀ c ts, dominated (VectorClock.clocks c)
             (VectorClock.clocks (VectorClock.seen_time c ts))) ∧
  (∀ c, dominated (VectorClock.clocks c)
          (VectorClock.clocks (VectorClock.export c).1)) ∧
  (∀ c ops, dominated (VectorClock.clocks c)
              (VectorClock.clocks (run c ops).1)) ∧
  (∀ uuid4 e c2,
     VectorClock.create_from_export uuid4 e = Ok c2 →
     ∃ c ts,
       VectorClock.clocks c = ∅ ∧
       _VectorExport.ts e = Val ts ∧
       c2 = VectorClock.seen_time c ts ∧
       dominated (VectorClock.clocks c) (VectorClock.clocks c2) ∧
       dominated (_VectorTimeStamp.timestamps ts) (VectorClock.clocks c2)).
Proof.
  split; [|split; [|split; [|split]]].
  - intros c. rewrite get_time_tick. apply tick_dominated.
  - intros c ts. apply seen_time_grows.
  - intros c. unfold VectorClock.export. rewrite get_time_tick.
    apply tick_dominated.
  - apply run_grows.
  - intros uuid4 [p ts] c2. unfold VectorClock.create_from_export. simpl.
    destruct p as [| |p], ts as [| |ts]; simpl; try done.
    + intros [= <-]. exists (VectorClock.init uuid4 None), ts.
      repeat (split; [reflexivity|]).
      split; [apply seen_time_grows | apply seen_time_covers].
    + intros [= <-]. exists (VectorClock.init uuid4 (Some p)), ts.
      repeat (split; [reflexivity|]).
      split; [apply seen_time_grows | apply seen_time_covers].
Qed.

(** ** Restoring from a bundle that lacks a field *)

(** C9, as stated, fails: a bundle whose [pid] is [None] is not
    well-formed, and both kinds of clock are restored from it, under the
    identity [uuid4()] draws (here 9). *)
Lemma restore_without_pid :
  let ts := _LamportTimeStamp.mk 5 3%N in
  let e := _LamportExport.mk PyNone (Val ts) in
  let vts := _VectorTimeStamp.mk {[ 3%N := 5 ]} in
  let ve := _VectorExport.mk PyNone (Val vts) in
  (well_formed e = false ∧
   LamportClock.create_from_export 9%N e = Ok (LamportClock.mk 9%N 5)) ∧
  (well_formed ve = false ∧
   VectorClock.create_from_export 9%N ve =
     Ok (VectorClock.mk 9%N {[ 3%N := 5 ]})).
Proof.
  split; split; reflexivity.
Qed.

(** A timestamp merged into a new instance: its keys, and its entries
    below 0 raised to 0. *)
Lemma seen_time_fresh (uuid4 : PID) (p : option PID) (ts : _VectorTimeStamp.t)
    (k : PID) :
  VectorClock.clocks (VectorClock.seen_time (VectorClock.init uuid4 p) ts) !! k
  = Z.max 0 <$> _VectorTimeStamp.timestamps ts !! k.
Proof.
  rewrite seen_time_lookup. simpl. rewrite lookup_empty.
  by destruct (_VectorTimeStamp.timestamps ts !! k).
Qed.

(** C9, amended. For either kind, [create_from_export] raises
    [AttributeError] when the bundle has no [pid] attribute, or when its
    [ts] is not there or is [None]; for a bundle whose [pid] is [None]
    and whose [ts] is a timestamp it raises nothing and returns a clock
    under a newly drawn identity, merged with the bundle's timestamp: the
    instance [__init__] makes for the draw, after [seen_time] of that
    timestamp, so with the counter at [max(0, ts.counter)], or with the
    frontier holding the keys of [ts.timestamps], each at
    [max(0, value)]. *)
Theorem restore_malformed :
  (restore_checks LamportClock.t ∧
   ∀ uuid4 e ts,
     _LamportExport.pid e = PyNone → _LamportExport.ts e = Val ts →
     LamportClock.create_from_export uuid4 e
       = Ok (LamportClock.seen_time (LamportClock.init uuid4 None) ts) ∧
     LamportClock.create_from_export uuid4 e
       = Ok (LamportClock.mk uuid4 (Z.max 0 (_LamportTimeStamp.counter ts)))) ∧
  (restore_checks VectorClock.t ∧
   ∀ uuid4 e ts,
     _VectorExport.pid e = PyNone → _VectorExport.ts e = Val ts →
     ∃ c, VectorClock.create_from_export uuid4 e = Ok c ∧
          c = VectorClock.seen_time (VectorClock.init uuid4 None) ts ∧
          VectorClock.process_id c = uuid4 ∧
          ∀ k, VectorClock.clocks c !! k
               = Z.max 0 <$> _VectorTimeStamp.timestamps ts !! k).
Proof.
  split; split.
  - intros uuid4 [p ts]; simpl.
    unfold LamportClock.create_from_export. simpl.
    split; [by intros ->|]. split.
    + intros [-> | ->]; by destruct p.
    + intros -> ts' ->. simpl. by eexists.
  - intros uuid4 [p ts] ts'. simpl. intros -> ->. by split.
  - intros uuid4 [p ts]; simpl.
    unfold VectorClock.create_from_export. simpl.
    split; [by intros ->|]. split.
    + intros [-> | ->]; by destruct p.
    + intros -> ts' ->. simpl. by eexists.
  - intros uuid4 [p ts] ts'. simpl. intros -> ->.
    eexists. split; [reflexivity|]. split; [reflexivity|]. split; [done|].
    intros k. apply seen_time_fresh.
Qed.

(** The three ways a field can be lacking, on a scalar bundle. *)
Example restore_lamport_errors :
  let ts := _LamportTimeStamp.mk 5 3%N in
  LamportClock.create_from_export 9%N (_LamportExport.mk Missing (Val ts))
    = Raise AttributeError ∧
  LamportClock.create_from_export 9%N (_LamportExport.mk (Val 3%N) Missing)
    = Raise AttributeError ∧
  LamportClock.create_from_export 9%N (_LamportExport.mk (Val 3%N) PyNone)
    = Raise AttributeError.
Proof. by vm_compute. Qed.

Example restore_vector_errors :
  let ts := _VectorTimeStamp.mk {[ 3%N := 5 ]} in
  VectorClock.create_from_export 9%N (_VectorExport.mk Missing (Val ts))
    = Raise AttributeError ∧
  VectorClock.create_from_export 9%N (_VectorExport.mk (Val 3%N) Missing)
    = Raise AttributeError ∧
  VectorClock.create_from_export 9%N (_VectorExport.mk (Val 3%N) PyNone)
    = Raise AttributeError.
Proof. by vm_compute. Qed.

(** ** Scenarios *)

Example scenario_frontiers :
  map_to_list (_VectorTimeStamp.timestamps scenario.1) = [(10%N, 3); (11%N, 1)] ∧
  map_to_list (_VectorTimeStamp.timestamps scenario.2) = [(11%N, 1)].
Proof. by vm_compute. Qed.

Example scenario_order :
  _VectorTimeStamp.lt scenario.2 scenario.1 = Ok true ∧
  _VectorTimeStamp.lt scenario.1 scenario.2 = Ok false.
Proof. by vm_compute. Qed.

Example communicate_lamport :
  communicate (LamportClock.init 10%N None) (LamportClock.init 11%N None)
  = [Ok true; Ok true; Ok true; Ok true].
Proof. by vm_compute. Qed.

Example communicate_vector :
  communicate (VectorClock.init 10%N None) (VectorClock.init 11%N None)
  = [Ok true; Ok true; Ok true; Ok true].
Proof. by vm_compute. Qed.

Example restore_lamport :
  restore (LamportClock.init 10%N None) = Ok (true, Ok true).
Proof. by vm_compute. Qed.

Example restore_vector :
  restore (VectorClock.init 10%N None) = Ok (true, Ok true).
Proof. by vm_compute. Qed.

(** * Further properties *)

(** ** The scalar order on all timestamps *)

Lemma lamport_eq_fields (t1 t2 : _LamportTimeStamp.t) :
  _LamportTimeStamp.eq t1 t2 = true ↔
  _LamportTimeStamp.counter t1 = _LamportTimeStamp.counter t2 ∧
  _LamportTimeStamp.process_id t1 = _LamportTimeStamp.process_id t2.
Proof.
  unfold _LamportTimeStamp.eq, pid_eq.
  by rewrite andb_true_iff, Z.eqb_eq, N.eqb_eq.
Qed.

Lemma lamport_eq_iff (t1 t2 : _LamportTimeStamp.t) :
  _LamportTimeStamp.eq t1 t2 = true ↔ t1 = t2.
Proof.
  rewrite lamport_eq_fields. destruct t1, t2; simpl.
  split; [by intros [-> ->] | by intros [= -> ->]].
Qed.

(** X1. [<] on scalar timestamps is a strict total order, and [==] is equality
    of both fields: no timestamp is below itself, [<] is transitive, and
    of [t1 < t2], [t1 == t2], [t2 < t1] exactly one holds. *)
Theorem lamport_lt_strict_total_order :
  (∀ t, _LamportTimeStamp.lt t t = false) ∧
  (∀ t1 t2 t3, _LamportTimeStamp.lt t1 t2 = true →
               _LamportTimeStamp.lt t2 t3 = true →
               _LamportTimeStamp.lt t1 t3 = true) ∧
  (∀ t1 t2,
     (_LamportTimeStamp.lt t1 t2 = true ∧ _LamportTimeStamp.eq t1 t2 = false ∧
      _LamportTimeStamp.lt t2 t1 = false) ∨
     (_LamportTimeStamp.lt t1 t2 = false ∧ _LamportTimeStamp.eq t1 t2 = true ∧
      _LamportTimeStamp.lt t2 t1 = false) ∨
     (_LamportTimeStamp.lt t1 t2 = false ∧ _LamportTimeStamp.eq t1 t2 = false ∧
      _LamportTimeStamp.lt t2 t1 = true)) ∧
  (∀ t1 t2, _LamportTimeStamp.eq t1 t2 = true ↔ t1 = t2).
Proof.
  split; [|split; [|split]].
  - intros t. apply not_true_iff_false. rewrite lamport_lt_iff. lia.
  - intros t1 t2 t3. rewrite !lamport_lt_iff. lia.
  - intros t1 t2.
    destruct (_LamportTimeStamp.lt t1 t2) eqn:H12,
      (_LamportTimeStamp.lt t2 t1) eqn:H21,
      (_LamportTimeStamp.eq t1 t2) eqn:He; auto 10; exfalso.
    all: repeat match goal with
           | H : _ = false |- _ => apply not_true_iff_false in H
           end.
    all: rewrite ?lamport_lt_iff, ?lamport_eq_fields in *; lia.
  - apply lamport_eq_iff.
Qed.

(** X2. The four generated comparisons agree: [a > b] is [b < a], [a <= b] is
    "not [b < a]" and also "[a < b] or [a == b]", [a >= b] is "not
    [a < b]". *)
Theorem lamport_comparisons_agree (a b : _LamportTimeStamp.t) :
  lamport_gt a b = _LamportTimeStamp.lt b a ∧
  lamport_le a b = negb (_LamportTimeStamp.lt b a) ∧
  lamport_le a b = _LamportTimeStamp.lt a b || _LamportTimeStamp.eq a b ∧
  lamport_ge a b = negb (_LamportTimeStamp.lt a b) ∧
  lamport_ge a b = lamport_le b a.
Proof.
  unfold lamport_gt, lamport_le, lamport_ge, _LamportTimeStamp.lt,
    _LamportTimeStamp.eq, pid_eq, pid_lt, pid_le, pid_gt, pid_ge.
  destruct a as [ca pa], b as [cb pb]. simpl.
  rewrite (Z.eqb_sym cb ca), (N.eqb_sym pb pa).
  destruct (Z.eqb_spec ca cb) as [Hc|Hc],
    (N.eqb_spec pa pb) as [Hp|Hp]; simpl.
  all: rewrite ?Z.gtb_ltb, ?Z.geb_leb, ?Z.leb_antisym, ?N.leb_antisym; simpl.
  all: repeat split; try done.
  all: rewrite ?negb_involutive; try done.
  all: try (destruct (N.ltb_spec pa pb), (N.ltb_spec pb pa); simpl; done || lia).
  all: try (destruct (Z.ltb_spec ca cb), (Z.ltb_spec cb ca); simpl; done || lia).
Qed.

(** ** All that one instance hands out *)

Section Chain.

Context {Clock TimeStamp ExportBundle : Type}.
Context `{!AbstractClock Clock TimeStamp ExportBundle}.

Variable past : Clock → TimeStamp → Prop.

Hypothesis past_step : ∀ c op ts, past c ts → past (step c op).1 ts.
Hypothesis past_out : ∀ c op, Forall (past (step c op).1) (step c op).2.
Hypothesis past_after :
  ∀ c op old, past c old → Forall (before old) (step c op).2.

(** A call hands out one timestamp at most. *)
Lemma step_short (c : Clock) (op : call TimeStamp) :
  (length (step c op).2 ≤ 1)%nat.
Proof.
  destruct op; simpl.
  - destruct (get_time c). simpl. lia.
  - lia.
  - destruct (export c) as [c' e]. unfold carried. simpl.
    destruct (bundle_ts e); simpl; lia.
Qed.

Lemma run_after (c : Clock) (ops : list (call TimeStamp)) (old : TimeStamp) :
  past c old → Forall (before old) (run c ops).2.
Proof.
  revert c. induction ops as [|op ops IH]; intros c Hc; simpl; [constructor|].
  pose proof (past_after c op old Hc) as Hout.
  pose proof (past_step c op old Hc) as Hnext.
  destruct (step c op) as [c1 out]. specialize (IH c1 Hnext).
  destruct (run c1 ops) as [c2 outs]. simpl in *.
  apply Forall_app. by split.
Qed.

Lemma run_sorted (c : Clock) (ops : list (call TimeStamp)) :
  StronglySorted before (run c ops).2.
Proof.
  revert c. induction ops as [|op ops IH]; intros c; simpl; [constructor|].
  pose proof (past_out c op) as Hout.
  pose proof (step_short c op) as Hlen.
  destruct (step c op) as [c1 out]. specialize (IH c1).
  pose proof (λ old, run_after c1 ops old) as Hafter.
  destruct (run c1 ops) as [c2 outs]. simpl in *.
  destruct out as [|t [|t' out]]; simpl in *; [done| |lia].
  constructor; [done|]. apply Hafter. by inversion Hout.
Qed.

End Chain.

Lemma lamport_past_after (c : LamportClock.t) (op : call _LamportTimeStamp.t)
    (old : _LamportTimeStamp.t) :
  lamport_past c old → Forall (before old) (step c op).2.
Proof.
  unfold lamport_past. intros Hold.
  destruct op; simpl; repeat constructor; unfold before; simpl; f_equal;
    apply lamport_lt_counter; simpl; lia.
Qed.

Lemma vector_past_after (c : VectorClock.t) (op : call _VectorTimeStamp.t)
    (old : _VectorTimeStamp.t) :
  vector_past c old → Forall (before old) (step c op).2.
Proof.
  intros Hold%vector_past_before. rewrite get_time_tick in Hold.
  destruct op; simpl; [|constructor|].
  - rewrite get_time_tick. by repeat constructor.
  - unfold VectorClock.export. rewrite get_time_tick. by repeat constructor.
Qed.

(** X3. The timestamps an instance of either kind hands out, through any
    sequence of [get_time], [seen_time] and [export] calls with any
    arguments, from any state, form a chain: each is [<] all later ones. *)
Theorem handed_out_sorted :
  (∀ (c : LamportClock.t) ops, StronglySorted before (run c ops).2) ∧
  (∀ (c : VectorClock.t) ops, StronglySorted before (run c ops).2).
Proof.
  split; intros c ops.
  - apply (run_sorted lamport_past lamport_past_step lamport_past_out
             lamport_past_after).
  - apply (run_sorted vector_past vector_past_step vector_past_out
             vector_past_after).
Qed.

(** An invariant of every call holds after any sequence of calls. *)
Lemma run_invariant {Clock TimeStamp ExportBundle : Type}
    `{!AbstractClock Clock TimeStamp ExportBundle}
    (P : Clock → Prop) (c : Clock) (ops : list (call TimeStamp)) :
  (∀ c op, P c → P (step c op).1) → P c → P (run c ops).1.
Proof.
  intros Hstep. revert c. induction ops as [|op ops IH]; intros c Hc; [done|].
  simpl. specialize (Hstep c op Hc). destruct (step c op) as [c1 out].
  specialize (IH c1 Hstep). by destruct (run c1 ops).
Qed.

Lemma lamport_step_pid (c : LamportClock.t) (op : call _LamportTimeStamp.t) :
  LamportClock.process_id (step c op).1 = LamportClock.process_id c.
Proof. by destruct op. Qed.

Lemma vector_step_pid (c : VectorClock.t) (op : call _VectorTimeStamp.t) :
  VectorClock.process_id (step c op).1 = VectorClock.process_id c.
Proof.
  destruct op; simpl; [|done|].
  - by rewrite get_time_tick.
  - unfold VectorClock.export. by rewrite get_time_tick.
Qed.

(** X4. No call changes [process_id]; a scalar timestamp handed out carries
    it, and a vector timestamp handed out has an entry for it. *)
Theorem process_id_kept :
  (∀ (c : LamportClock.t) ops,
     LamportClock.process_id (run c ops).1 = LamportClock.process_id c ∧
     Forall (λ ts, _LamportTimeStamp.process_id ts = LamportClock.process_id c)
       (run c ops).2) ∧
  (∀ (c : VectorClock.t) ops,
     VectorClock.process_id (run c ops).1 = VectorClock.process_id c ∧
     Forall (λ ts, is_Some (_VectorTimeStamp.timestamps ts
                              !! VectorClock.process_id c))
       (run c ops).2).
Proof.
  split; intros c ops.
  - assert (LamportClock.process_id (run c ops).1 = LamportClock.process_id c)
      as Hpid.
    { apply (run_invariant
               (λ c', LamportClock.process_id c' = LamportClock.process_id c));
        [|done]. intros c' op <-. apply lamport_step_pid. }
    split; [done|]. rewrite <- Hpid.
    apply (run_past (λ c' ts, _LamportTimeStamp.process_id ts
                              = LamportClock.process_id c')).
    + intros c' op ts ->. by rewrite lamport_step_pid.
    + intros c' op. destruct op; simpl; by repeat constructor.
  - assert (VectorClock.process_id (run c ops).1 = VectorClock.process_id c)
      as Hpid.
    { apply (run_invariant
               (λ c', VectorClock.process_id c' = VectorClock.process_id c));
        [|done]. intros c' op <-. apply vector_step_pid. }
    split; [done|]. rewrite <- Hpid.
    apply (run_past (λ c' ts, is_Some (_VectorTimeStamp.timestamps ts
                                         !! VectorClock.process_id c'))).
    + intros c' op ts Hts. by rewrite vector_step_pid.
    + intros c' op. destruct op; simpl; [|constructor|].
      * rewrite get_time_tick. repeat constructor. simpl.
        unfold tick. by rewrite lookup_insert_eq.
      * unfold VectorClock.export. rewrite get_time_tick.
        repeat constructor. simpl. unfold tick. by rewrite lookup_insert_eq.
Qed.

(** ** Merging, entry by entry *)

Lemma seen_time_dom (c : VectorClock.t) (ts : _VectorTimeStamp.t) :
  dom (VectorClock.clocks (VectorClock.seen_time c ts)) =
  dom (VectorClock.clocks c) ∪ dom (_VectorTimeStamp.timestamps ts).
Proof.
  apply set_eq. intros k.
  rewrite elem_of_union, !elem_of_dom, seen_time_lookup.
  destruct (_VectorTimeStamp.timestamps ts !! k) as [v|].
  - split; [intros _; right; by eexists | intros _; by eexists].
  - split; [by left | intros [?|[? ?]]; done].
Qed.

(** X5. [VectorClock.seen_time] leaves, at every key of [ts], the larger of
    [ts]'s entry and the clock's (0 where the clock had none), and leaves
    all other entries, and [process_id], as they were; the keys afterwards
    are those of the clock and those of [ts]. *)
Theorem seen_time_merge (c : VectorClock.t) (ts : _VectorTimeStamp.t) :
  let c' := VectorClock.seen_time c ts in
  VectorClock.process_id c' = VectorClock.process_id c ∧
  (∀ k, VectorClock.clocks c' !! k =
        match _VectorTimeStamp.timestamps ts !! k with
        | Some v => Some (Z.max (default 0 (VectorClock.clocks c !! k)) v)
        | None => VectorClock.clocks c !! k
        end) ∧
  dom (VectorClock.clocks c') =
    dom (VectorClock.clocks c) ∪ dom (_VectorTimeStamp.timestamps ts).
Proof.
  simpl. split; [done|]. split; [|apply seen_time_dom].
  intros k. apply seen_time_lookup.
Qed.

Lemma lamport_seen_past (c : LamportClock.t) (ts : _LamportTimeStamp.t) :
  lamport_past c ts → LamportClock.seen_time c ts = c.
Proof.
  unfold lamport_past, LamportClock.seen_time. destruct c as [p n]. simpl.
  intros H. f_equal. lia.
Qed.

Lemma vector_seen_past (c : VectorClock.t) (ts : _VectorTimeStamp.t) :
  vector_past c ts → VectorClock.seen_time c ts = c.
Proof.
  intros Hpast. apply vector_clock_eq; [done|]. apply map_eq. intros k.
  rewrite seen_time_lookup.
  destruct (_VectorTimeStamp.timestamps ts !! k) as [v|] eqn:Hk; [|done].
  destruct (Hpast k v Hk) as (w & -> & ?). simpl. f_equal. lia.
Qed.

(** X6. Observing a timestamp the instance itself handed out earlier changes
    nothing, for either kind and after any history. *)
Theorem seen_own_time_noop :
  (∀ (c0 : LamportClock.t) ops,
     let '(c, out) := run c0 ops in
     Forall (λ ts, LamportClock.seen_time c ts = c) out) ∧
  (∀ (c0 : VectorClock.t) ops,
     let '(c, out) := run c0 ops in
     Forall (λ ts, VectorClock.seen_time c ts = c) out).
Proof.
  split; intros c0 ops.
  - pose proof (run_past lamport_past lamport_past_step lamport_past_out
                  c0 ops) as Hpast.
    destruct (run c0 ops) as [c out]. simpl in Hpast.
    eapply Forall_impl; [exact Hpast|]. apply lamport_seen_past.
  - pose proof (run_past vector_past vector_past_step vector_past_out
                  c0 ops) as Hpast.
    destruct (run c0 ops) as [c out]. simpl in Hpast.
    eapply Forall_impl; [exact Hpast|]. apply vector_seen_past.
Qed.

(** X7. When no entry of [ts] is negative, the frontier after
    [VectorClock.seen_time] is the least one that bounds both the
    frontier before and [ts]. *)
Theorem seen_time_least_upper_bound (c : VectorClock.t)
    (ts : _VectorTimeStamp.t) :
  frontier_nonneg (_VectorTimeStamp.timestamps ts) →
  let m := VectorClock.clocks (VectorClock.seen_time c ts) in
  upper_bound m (VectorClock.clocks c) (_VectorTimeStamp.timestamps ts) ∧
  ∀ m', upper_bound m' (VectorClock.clocks c) (_VectorTimeStamp.timestamps ts) →
        dominated m m'.
Proof.
  intros Hnn m. split.
  - split; [apply seen_time_grows | apply seen_time_covers].
  - intros m' [Hc Hts] k v. subst m. rewrite seen_time_lookup.
    destruct (_VectorTimeStamp.timestamps ts !! k) as [x|] eqn:Hx.
    + intros [= <-]. destruct (Hts k x Hx) as (w & Hw & ?).
      exists w. split; [done|].
      destruct (VectorClock.clocks c !! k) as [y|] eqn:Hy; simpl.
      * destruct (Hc k y Hy) as (w' & Hw' & ?). simplify_eq. lia.
      * specialize (Hnn k x Hx). lia.
    + intros Hk. apply (Hc k v Hk).
Qed.

Lemma seen_time_least_upper_bound_example :
  let c := VectorClock.mk 1%N {[ 1%N := 2 ]} in
  let ts := _VectorTimeStamp.mk {[ 2%N := 1 ]} in
  let m := VectorClock.clocks (VectorClock.seen_time c ts) in
  upper_bound m (VectorClock.clocks c) (_VectorTimeStamp.timestamps ts) ∧
  ∀ m', upper_bound m' (VectorClock.clocks c) (_VectorTimeStamp.timestamps ts) →
        dominated m m'.
Proof.
  apply (seen_time_least_upper_bound (VectorClock.mk 1%N {[ 1%N := 2 ]})
           (_VectorTimeStamp.mk {[ 2%N := 1 ]})).
  intros k v. cbn [_VectorTimeStamp.timestamps].
  intros [_ <-]%lookup_singleton_Some. lia.
Defined.

(** The condition is needed: a negative entry at a key the clock lacks is
    merged as 0, above the bound [{1: -5}]. *)
Example seen_time_negative_entry :
  let c := VectorClock.mk 2%N ∅ in
  let ts := _VectorTimeStamp.mk {[ 1%N := -5 ]} in
  upper_bound {[ 1%N := -5 ]} (VectorClock.clocks c)
    (_VectorTimeStamp.timestamps ts) ∧
  VectorClock.clocks (VectorClock.seen_time c ts) !! 1%N = Some 0.
Proof.
  simpl. split; [split|].
  - intros k v. by rewrite lookup_empty.
  - apply dominated_refl.
  - by vm_compute.
Qed.

(** ** Clocks that came from a constructor *)

(** What every call's outputs satisfy under an invariant, all outputs of a
    sequence of calls satisfy. *)
Lemma run_out_invariant {Clock TimeStamp ExportBundle : Type}
    `{!AbstractClock Clock TimeStamp ExportBundle}
    (I : Clock → Prop) (Q : TimeStamp → Prop)
    (c : Clock) (ops : list (call TimeStamp)) :
  (∀ c op, I c → I (step c op).1) →
  (∀ c op, I c → Forall Q (step c op).2) →
  I c → Forall Q (run c ops).2.
Proof.
  intros Hstep Hout. revert c.
  induction ops as [|op ops IH]; intros c Hc; simpl; [constructor|].
  specialize (Hstep c op Hc). specialize (Hout c op Hc).
  destruct (step c op) as [c1 out]. specialize (IH c1 Hstep).
  destruct (run c1 ops) as [c2 outs]. simpl in *.
  apply Forall_app. by split.
Qed.

Lemma lamport_constructed_nonneg (c : LamportClock.t) :
  lamport_constructed c → 0 ≤ LamportClock.counter c.
Proof.
  intros [(u & p & ->)|(u & [p ts] & H)]; [done|].
  unfold LamportClock.create_from_export in H. simpl in H.
  destruct p as [| |p], ts as [| |ts]; simpl in H; try done.
  all: injection H as <-; simpl; lia.
Qed.

Lemma lamport_step_nonneg (c : LamportClock.t) (op : call _LamportTimeStamp.t) :
  0 ≤ LamportClock.counter c → 0 ≤ LamportClock.counter (step c op).1.
Proof. destruct op; simpl; lia. Qed.

Lemma tick_nonneg (m : gmap PID Z) (pid : PID) :
  frontier_nonneg m → frontier_nonneg (tick m pid).
Proof.
  intros Hm k v. unfold tick. destruct (decide (pid = k)) as [->|Hne].
  - rewrite lookup_insert_eq. intros [= <-].
    destruct (m !! k) as [w|] eqn:Hw; simpl; [|lia].
    specialize (Hm k w Hw). lia.
  - rewrite lookup_insert_ne by done. apply Hm.
Qed.

(** The merge into a frontier without negative entries has none, whatever
    is merged. *)
Lemma seen_time_nonneg (c : VectorClock.t) (ts : _VectorTimeStamp.t) :
  frontier_nonneg (VectorClock.clocks c) →
  frontier_nonneg (VectorClock.clocks (VectorClock.seen_time c ts)).
Proof.
  intros Hc k v. rewrite seen_time_lookup.
  destruct (_VectorTimeStamp.timestamps ts !! k) as [x|].
  - intros [= <-].
    destruct (VectorClock.clocks c !! k) as [w|] eqn:Hw; simpl; [|lia].
    specialize (Hc k w Hw). lia.
  - apply Hc.
Qed.

Lemma vector_constructed_nonneg (c : VectorClock.t) :
  vector_constructed c → frontier_nonneg (VectorClock.clocks c).
Proof.
  intros [(u & p & ->)|(u & [p ts] & H)].
  - intros k v. simpl. by rewrite lookup_empty.
  - unfold VectorClock.create_from_export in H. simpl in H.
    destruct p as [| |p], ts as [| |ts]; simpl in H; try done.
    all: injection H as <-; apply seen_time_nonneg.
    all: intros k v; simpl; by rewrite lookup_empty.
Qed.

Lemma vector_step_nonneg (c : VectorClock.t) (op : call _VectorTimeStamp.t) :
  frontier_nonneg (VectorClock.clocks c) →
  frontier_nonneg (VectorClock.clocks (step c op).1).
Proof.
  intros Hc. destruct op as [|ts|]; simpl.
  - rewrite get_time_tick. by apply tick_nonneg.
  - by apply seen_time_nonneg.
  - unfold VectorClock.export. rewrite get_time_tick. by apply tick_nonneg.
Qed.

Lemma tick_own (m : gmap PID Z) (pid : PID) :
  frontier_nonneg m → ∃ v, tick m pid !! pid = Some v ∧ 1 ≤ v.
Proof.
  intros Hm. unfold tick. rewrite lookup_insert_eq. eexists. split; [done|].
  destruct (m !! pid) as [w|] eqn:Hw; simpl; [|lia].
  specialize (Hm pid w Hw). lia.
Qed.

(** X8. A clock that came from a constructor never holds a negative count,
    whatever timestamps it is given to observe: the scalar counter stays
    at 0 or above and every scalar timestamp handed out counts 1 or more;
    no entry of the vector frontier or of a vector timestamp handed out
    is negative, and the own entry of such a timestamp is 1 or more. *)
Theorem constructed_counts :
  (∀ (c0 : LamportClock.t) ops,
     lamport_constructed c0 →
     0 ≤ LamportClock.counter (run c0 ops).1 ∧
     Forall (λ ts, 1 ≤ _LamportTimeStamp.counter ts) (run c0 ops).2) ∧
  (∀ (c0 : VectorClock.t) ops,
     vector_constructed c0 →
     frontier_nonneg (VectorClock.clocks (run c0 ops).1) ∧
     Forall (λ ts, frontier_nonneg (_VectorTimeStamp.timestamps ts) ∧
                   ∃ v, _VectorTimeStamp.timestamps ts
                          !! VectorClock.process_id c0 = Some v ∧ 1 ≤ v)
       (run c0 ops).2).
Proof.
  split; intros c0 ops Hc0.
  - apply lamport_constructed_nonneg in Hc0. split.
    + apply (run_invariant (λ c, 0 ≤ LamportClock.counter c));
        [apply lamport_step_nonneg | done].
    + apply (run_out_invariant (λ c, 0 ≤ LamportClock.counter c));
        [apply lamport_step_nonneg | | done].
      intros c op Hc. destruct op; simpl; repeat constructor; simpl; lia.
  - apply vector_constructed_nonneg in Hc0. split.
    + apply (run_invariant (λ c, frontier_nonneg (VectorClock.clocks c)));
        [apply vector_step_nonneg | done].
    + apply (run_out_invariant
               (λ c, frontier_nonneg (VectorClock.clocks c) ∧
                     VectorClock.process_id c = VectorClock.process_id c0));
        [| |done].
      * intros c op [Hc <-]. split; [by apply vector_step_nonneg|].
        apply vector_step_pid.
      * intros c op [Hc <-]. destruct op; simpl; [|constructor|].
        -- rewrite get_time_tick. repeat constructor; simpl.
           ++ by apply tick_nonneg.
           ++ by apply tick_own.
        -- unfold VectorClock.export. rewrite get_time_tick.
           repeat constructor; simpl.
           ++ by apply tick_nonneg.
           ++ by apply tick_own.
Qed.

Lemma constructed_counts_example :
  let c0 := LamportClock.init 1%N None in
  let v0 := VectorClock.init 1%N None in
  let ops := [GetTime; SeenTime (_LamportTimeStamp.mk (-3) 2%N); Export] in
  let vops := [GetTime; SeenTime (_VectorTimeStamp.mk {[ 2%N := -3 ]});
               Export] in
  (0 ≤ LamportClock.counter (run c0 ops).1 ∧
   Forall (λ ts, 1 ≤ _LamportTimeStamp.counter ts) (run c0 ops).2) ∧
  (frontier_nonneg (VectorClock.clocks (run v0 vops).1) ∧
   Forall (λ ts, frontier_nonneg (_VectorTimeStamp.timestamps ts) ∧
                 ∃ v, _VectorTimeStamp.timestamps ts
                        !! VectorClock.process_id v0 = Some v ∧ 1 ≤ v)
     (run v0 vops).2).
Proof.
  intros c0 v0 ops vops. split.
  - apply (proj1 constructed_counts c0 ops). left. by exists 1%N, None.
  - apply (proj2 constructed_counts v0 vops). left. by exists 1%N, None.
Defined.

(** ** Export and restore *)

(** X9. [create_from_export] on a bundle with both fields: the clock has the
    bundle's [pid] (the draw [uuid4] is not used, nor is the identity
    inside a scalar timestamp), and a count of the timestamp is taken over
    unless it is negative, which makes it 0: the scalar counter is
    [max(0, ts.counter)], the vector frontier has the keys of
    [ts.timestamps], each with [max(0, value)]. *)
Theorem restore_clamps (uuid4 p : PID) :
  (∀ ts : _LamportTimeStamp.t,
     LamportClock.create_from_export uuid4 (_LamportExport.mk (Val p) (Val ts))
     = Ok (LamportClock.mk p (Z.max 0 (_LamportTimeStamp.counter ts)))) ∧
  (∀ ts : _VectorTimeStamp.t,
     ∃ c, VectorClock.create_from_export uuid4
            (_VectorExport.mk (Val p) (Val ts)) = Ok c ∧
          VectorClock.process_id c = p ∧
          ∀ k, VectorClock.clocks c !! k
               = Z.max 0 <$> _VectorTimeStamp.timestamps ts !! k).
Proof.
  split; intros ts; [done|].
  eexists. split; [reflexivity|]. split; [done|].
  intros k. apply seen_time_fresh.
Qed.

Lemma lamport_round_trip (c : LamportClock.t) (uuid4 : PID) :
  0 ≤ LamportClock.counter c →
  LamportClock.create_from_export uuid4 (LamportClock.export c).2
  = Ok (LamportClock.export c).1.
Proof.
  intros Hc. unfold LamportClock.create_from_export. simpl.
  unfold LamportClock.seen_time. simpl. do 2 f_equal. lia.
Qed.

Lemma vector_round_trip (c : VectorClock.t) (uuid4 : PID) :
  frontier_nonneg (VectorClock.clocks c) →
  VectorClock.create_from_export uuid4 (VectorClock.export c).2
  = Ok (VectorClock.export c).1.
Proof.
  intros Hc. unfold VectorClock.export. rewrite get_time_tick.
  unfold VectorClock.create_from_export. simpl. f_equal.
  apply vector_clock_eq; [done|]. apply map_eq. intros k.
  rewrite seen_time_fresh. simpl.
  destruct (tick _ _ !! k) as [v|] eqn:Hv; [|done]. simpl. f_equal.
  apply (tick_nonneg _ (VectorClock.process_id c)) in Hc.
  specialize (Hc k v Hv). lia.
Qed.

(** X10. Round trip: a clock of either kind that came from a constructor,
    after any sequence of calls, is exported; [create_from_export] on the
    bundle returns a clock in the very state the exported clock is left
    in. *)
Theorem export_restore_round_trip :
  (∀ (c0 : LamportClock.t) ops uuid4,
     lamport_constructed c0 →
     let c := (run c0 ops).1 in
     LamportClock.create_from_export uuid4 (LamportClock.export c).2
     = Ok (LamportClock.export c).1) ∧
  (∀ (c0 : VectorClock.t) ops uuid4,
     vector_constructed c0 →
     let c := (run c0 ops).1 in
     VectorClock.create_from_export uuid4 (VectorClock.export c).2
     = Ok (VectorClock.export c).1).
Proof.
  split; intros c0 ops uuid4 Hc0 c.
  - apply lamport_round_trip. subst c.
    apply (run_invariant (λ c, 0 ≤ LamportClock.counter c));
      [apply lamport_step_nonneg | by apply lamport_constructed_nonneg].
  - apply vector_round_trip. subst c.
    apply (run_invariant (λ c, frontier_nonneg (VectorClock.clocks c)));
      [apply vector_step_nonneg | by apply vector_constructed_nonneg].
Qed.

Lemma export_restore_round_trip_example :
  let c := (run (LamportClock.init 1%N None)
              [GetTime; SeenTime (_LamportTimeStamp.mk 7 2%N)]).1 in
  let v := (run (VectorClock.init 1%N None)
              [GetTime; SeenTime (_VectorTimeStamp.mk {[ 2%N := 7 ]})]).1 in
  LamportClock.create_from_export 9%N (LamportClock.export c).2
    = Ok (LamportClock.export c).1 ∧
  VectorClock.create_from_export 9%N (VectorClock.export v).2
    = Ok (VectorClock.export v).1.
Proof.
  split.
  - apply (proj1 export_restore_round_trip (LamportClock.init 1%N None)).
    left. by exists 1%N, None.
  - apply (proj2 export_restore_round_trip (VectorClock.init 1%N None)).
    left. by exists 1%N, None.
Defined.

(** Outside such clocks the round trip can fail: a scalar counter set to
    -5 by hand is exported as -4 and restored as 0. *)
Example round_trip_negative_counter :
  let c := LamportClock.mk 1%N (-5) in
  (LamportClock.export c).1 = LamportClock.mk 1%N (-4) ∧
  LamportClock.create_from_export 9%N (LamportClock.export c).2
    = Ok (LamportClock.mk 1%N 0).
Proof. by vm_compute. Qed.

(** ** Ticks in a row *)

Lemma tick_tick (m : gmap PID Z) (pid : PID) (k : Z) :
  <[pid := default 0 (tick m pid !! pid) + k]> (tick m pid)
  = <[pid := default 0 (m !! pid) + (1 + k)]> m.
Proof.
  unfold tick. rewrite lookup_insert_eq, insert_insert_eq. simpl.
  f_equal. lia.
Qed.

(** X11. [n] calls of [get_time] in a row: the scalar clock hands out the
    counters [counter + 1 .. counter + n] under its identity and ends at
    [counter + n]; the vector clock hands out its frontier with the own
    entry at [own + 1 .. own + n] ([own] being 0 when there was no entry)
    and no other entry changed. *)
Theorem get_time_in_a_row (n : nat) :
  (∀ c : LamportClock.t,
     run c (replicate n GetTime) =
       (LamportClock.mk (LamportClock.process_id c)
          (LamportClock.counter c + Z.of_nat n),
        (λ k : nat, _LamportTimeStamp.mk (LamportClock.counter c + Z.of_nat k)
                      (LamportClock.process_id c)) <$> seq 1 n)) ∧
  (∀ c : VectorClock.t,
     let pid := VectorClock.process_id c in
     let own := default 0 (VectorClock.clocks c !! pid) in
     (run c (replicate n GetTime)).2 =
       (λ k : nat, _VectorTimeStamp.mk
                     (<[pid := own + Z.of_nat k]> (VectorClock.clocks c)))
         <$> seq 1 n ∧
     VectorClock.process_id (run c (replicate n GetTime)).1 = pid ∧
     VectorClock.clocks (run c (replicate n GetTime)).1 =
       match n with
       | O => VectorClock.clocks c
       | S _ => <[pid := own + Z.of_nat n]> (VectorClock.clocks c)
       end).
Proof.
  split.
  - induction n as [|n IH]; intros c.
    + simpl. destruct c. simpl. do 2 f_equal. lia.
    + cbn [replicate run step get_time Lamport].
      unfold LamportClock.get_time. cbv beta iota zeta.
      rewrite IH. cbn [LamportClock.counter LamportClock.process_id app].
      cbn [seq]. rewrite fmap_cons, <- (fmap_S_seq 1), <- list_fmap_compose.
      replace (LamportClock.counter c + 1 + Z.of_nat n)
        with (LamportClock.counter c + Z.of_nat (S n)) by lia.
      replace (LamportClock.counter c + Z.of_nat 1)
        with (LamportClock.counter c + 1) by lia.
      do 2 f_equal. apply list_fmap_ext. intros _ k _. simpl.
      f_equal. lia.
  - induction n as [|n IH]; intros c pid own; [done|].
    cbn [replicate run step get_time Vector]. rewrite get_time_tick.
    set (c1 := VectorClock.mk _ _).
    destruct (IH c1) as (Hout & Hpid & Hclocks).
    destruct (run c1 (replicate n GetTime)) as [c2 outs].
    simpl in Hout, Hpid, Hclocks. simpl. split; [|split].
    + f_equal. rewrite Hout, <- (fmap_S_seq 1).
      change (list_fmap nat _VectorTimeStamp.t ?f ?l) with (f <$> l).
      rewrite <- list_fmap_compose.
      apply list_fmap_ext. intros _ k _. simpl. f_equal.
      fold pid. rewrite tick_tick. fold own. f_equal. lia.
    + done.
    + rewrite Hclocks. destruct n as [|n]; [done|].
      fold pid. rewrite tick_tick. fold own. f_equal. lia.
Qed.

(** ** The tests, for all clocks *)

(** X12. [test_comunication_is_monoton] passes whatever state the two clocks
    start in, for either kind: after the two have observed each other's
    timestamp, the next timestamp of each is after both. *)
Theorem communication_is_monotone :
  (∀ c1 c2 : LamportClock.t,
     communicate c1 c2 = [Ok true; Ok true; Ok true; Ok true]) ∧
  (∀ c1 c2 : VectorClock.t,
     communicate c1 c2 = [Ok true; Ok true; Ok true; Ok true]).
Proof.
  split; intros c1 c2; unfold communicate.
  - simpl. rewrite !lamport_lt_counter by (simpl; lia). done.
  - cbn [get_time seen_time time_lt Vector].
    rewrite (get_time_tick c1), (get_time_tick c2).
    set (d1 := VectorClock.mk _ (tick (VectorClock.clocks c1) _)).
    set (d2 := VectorClock.mk _ (tick (VectorClock.clocks c2) _)).
    set (t1 := _VectorTimeStamp.mk (tick (VectorClock.clocks c1) _)).
    set (t2 := _VectorTimeStamp.mk (tick (VectorClock.clocks c2) _)).
    pose proof (vector_past_before (VectorClock.seen_time d1 t2)) as H1.
    pose proof (vector_past_before (VectorClock.seen_time d2 t1)) as H2.
    destruct (VectorClock.get_time (VectorClock.seen_time d1 t2)) as [e1 a1].
    destruct (VectorClock.get_time (VectorClock.seen_time d2 t1)) as [e2 a2].
    simpl in H1, H2.
    rewrite (H1 t1) by apply (seen_time_grows d1 t2).
    rewrite (H1 t2) by apply seen_time_covers.
    rewrite (H2 t1) by apply seen_time_covers.
    rewrite (H2 t2) by apply (seen_time_grows d2 t1).
    done.
Qed.

(** X13. [test_can_restore_clock] passes whatever state the clock starts in,
    for either kind: the restored clock has the same [process_id] and its
    first timestamp is after the last one read before the export. *)
Theorem can_restore_clock :
  (∀ c1 : LamportClock.t, restore c1 = Ok (true, Ok true)) ∧
  (∀ c1 : VectorClock.t, restore c1 = Ok (true, Ok true)).
Proof.
  split; intros c1; unfold restore.
  - destruct (run c1 (replicate 10 GetTime)) as [c out]. simpl.
    unfold pid_eq. rewrite N.eqb_refl.
    rewrite lamport_lt_counter by (simpl; lia). done.
  - destruct (run c1 (replicate 10 GetTime)) as [c out].
    cbn [get_time export create_from_export time_lt clock_pid Vector].
    rewrite (get_time_tick c). unfold VectorClock.export.
    rewrite get_time_tick. cbn [VectorClock.process_id VectorClock.clocks].
    unfold VectorClock.create_from_export. simpl.
    unfold pid_eq. rewrite N.eqb_refl. do 2 f_equal.
    apply vector_past_before.
    eapply dominated_trans; [|apply seen_time_covers]. apply tick_dominated.
Qed.

(** [test_lamport_time_is_always_ordered] with the draws 1 and 2. *)
Lemma fresh_scalar_clocks_ordered_example :
  let t1 := (LamportClock.get_time (LamportClock.init 1%N None)).2 in
  let t2 := (LamportClock.get_time (LamportClock.init 2%N None)).2 in
  _LamportTimeStamp.lt t1 t2 = true ∨ _LamportTimeStamp.lt t2 t1 = true.
Proof. apply (fresh_scalar_clocks_ordered 1%N 2%N). lia. Defined.

(** ** What a vector clock has not seen *)

(** X15. A tick of one vector clock that another clock, of another identity,
    has not seen is not before that clock's next timestamp: when the
    second clock's entry for the first (0 if it has none) does not exceed
    the first clock's own entry before the tick, [t1 < t2] is [False]. *)
Theorem unseen_tick_not_before (c1 c2 : VectorClock.t) :
  VectorClock.process_id c1 ≠ VectorClock.process_id c2 →
  default 0 (VectorClock.clocks c2 !! VectorClock.process_id c1)
    ≤ default 0 (VectorClock.clocks c1 !! VectorClock.process_id c1) →
  _VectorTimeStamp.lt (VectorClock.get_time c1).2 (VectorClock.get_time c2).2
  = Ok false.
Proof.
  intros Hne Hle. rewrite !get_time_tick. cbn [snd]. apply lt_false.
  cbn [_VectorTimeStamp.timestamps]. intros [Hdom _].
  destruct (Hdom (VectorClock.process_id c1)
              (default 0 (VectorClock.clocks c1 !! VectorClock.process_id c1) + 1))
    as (w & Hw & ?).
  { unfold tick. apply lookup_insert_eq. }
  unfold tick in Hw. rewrite lookup_insert_ne in Hw by done.
  rewrite Hw in Hle. simpl in Hle. lia.
Qed.

(** Clock 1 has ticked twice and clock 2 holds its first tick only. *)
Lemma unseen_tick_not_before_example :
  let c1 := VectorClock.mk 1%N {[ 1%N := 2 ]} in
  let c2 := VectorClock.mk 2%N (<[ 2%N := 4 ]> {[ 1%N := 1 ]}) in
  _VectorTimeStamp.lt (VectorClock.get_time c1).2 (VectorClock.get_time c2).2
  = Ok false.
Proof.
  apply (unseen_tick_not_before
           (VectorClock.mk 1%N {[ 1%N := 2 ]})
           (VectorClock.mk 2%N (<[ 2%N := 4 ]> {[ 1%N := 1 ]}))).
  - simpl. lia.
  - by vm_compute.
Defined.
